(** * Verification of the stream-run entry store and notification pipeline.

    Shallow embedding of [entries/entries.go] (the Datastore-backed entry
    store) and of the create/update handlers of [stream.go] together with
    [sendWebMentions].  The Cloud Datastore client, the webmention library
    and the HTTP hub are external; their behaviour is modelled as the Go
    client documents it, and the network as an explicit environment. *)

From Stdlib Require Import ZArith Ascii Lia Sorted.
From stdpp Require Import gmap strings list sorting.

Open Scope Z_scope.

(** ** [crypto/md5]: [md5.Sum] over the bytes of a Go string. *)
Module MD5.

Definition K : list Z := [3614090360; 3905402710; 606105819; 3250441966; 4118548399; 1200080426; 2821735955; 4249261313; 1770035416; 2336552879; 4294925233; 2304563134; 1804603682; 4254626195; 2792965006; 1236535329; 4129170786; 3225465664; 643717713; 3921069994; 3593408605; 38016083; 3634488961; 3889429448; 568446438; 3275163606; 4107603335; 1163531501; 2850285829; 4243563512; 1735328473; 2368359562; 4294588738; 2272392833; 1839030562; 4259657740; 2763975236; 1272893353; 4139469664; 3200236656; 681279174; 3936430074; 3572445317; 76029189; 3654602809; 3873151461; 530742520; 3299628645; 4096336452; 1126891415; 2878612391; 4237533241; 1700485571; 2399980690; 4293915773; 2240044497; 1873313359; 4264355552; 2734768916; 1309151649; 4149444226; 3174756917; 718787259; 3951481745].
Definition md5_pad (msg : list Z) : list Z :=
  let len := Z.of_nat (List.length msg) in
  msg ++ [128] ++ repeat 0 (Z.to_nat ((55 - len) mod 64))
      ++ map (fun i => Z.land (Z.shiftr (8 * len) (8 * Z.of_nat i)) 255) (seq 0 8).
Definition mask32 := Z.ones 32.
Definition add32 a b := Z.land (a + b) mask32.
Definition rotl32 x c := Z.land (Z.lor (Z.shiftl x c) (Z.shiftr x (32 - c))) mask32.
Definition not32 x := Z.lxor x mask32.
Definition S_shift : list Z := [7;12;17;22; 5;9;14;20; 4;11;16;23; 6;10;15;21].
Definition shift_of (i : nat) : Z := nth ((i / 16) * 4 + i mod 4) S_shift 0.
Definition le32 (b : list Z) (j : nat) : Z :=
  nth (4*j) b 0 + Z.shiftl (nth (4*j+1) b 0) 8 + Z.shiftl (nth (4*j+2) b 0) 16 + Z.shiftl (nth (4*j+3) b 0) 24.
Definition md5_step (M : list Z) (st : Z * Z * Z * Z) (i : nat) : Z * Z * Z * Z :=
  let '(a, b, c, d) := st in
  let '(f, g) :=
    if (i <? 16)%nat then (Z.lor (Z.land b c) (Z.land (not32 b) d), i)
    else if (i <? 32)%nat then (Z.lor (Z.land d b) (Z.land (not32 d) c), (5*i+1) mod 16)%nat
    else if (i <? 48)%nat then (Z.lxor (Z.lxor b c) d, (3*i+5) mod 16)%nat
    else (Z.lxor c (Z.lor b (not32 d)), (7*i) mod 16)%nat in
  let f := add32 (add32 (add32 f a) (nth i K 0)) (le32 M g) in
  (d, add32 b (rotl32 f (shift_of i)), b, c).
Definition md5_block (st : Z * Z * Z * Z) (M : list Z) : Z * Z * Z * Z :=
  let '(a, b, c, d) := st in
  let '(a', b', c', d') := fold_left (md5_step M) (seq 0 64) st in
  (add32 a a', add32 b b', add32 c c', add32 d d').
Fixpoint md5_blocks (fuel : nat) (st : Z * Z * Z * Z) (bs : list Z) : Z * Z * Z * Z :=
  match fuel with
  | O => st
  | S fuel' => md5_blocks fuel' (md5_block st (firstn 64 bs)) (skipn 64 bs)
  end.
Definition word_bytes (w : Z) : list Z :=
  map (fun i => Z.land (Z.shiftr w (8 * Z.of_nat i)) 255) (seq 0 4).
Definition md5_sum (msg : list Z) : list Z :=
  let p := md5_pad msg in
  let '(a, b, c, d) := md5_blocks (List.length p / 64) (1732584193, 4023233417, 2562383102, 271733878) p in
  word_bytes a ++ word_bytes b ++ word_bytes c ++ word_bytes d.
Definition bytes_of_string (s : string) : list Z :=
  map (fun c => Z.of_N (N_of_ascii c)) (String.list_ascii_of_string s).
Definition hex_digit (n : Z) : ascii := ascii_of_nat (Z.to_nat (if n <? 10 then 48 + n else 87 + n)).
Definition hex_x (bs : list Z) : string :=
  String.string_of_list_ascii (flat_map (fun b => [hex_digit (Z.shiftr b 4); hex_digit (Z.land b 15)]) bs).
End MD5.

(** ** [time.Time.Format(time.RFC3339Nano)] for a UTC wall-clock reading,
    given in nanoseconds since the Unix epoch. *)
Module TimeFormat.
Fixpoint digits_aux (fuel : nat) (n : Z) (acc : string) : string :=
  match fuel with
  | O => acc
  | S f => let acc' := String.String (ascii_of_nat (Z.to_nat (48 + n mod 10))) acc in
           if n <? 10 then acc' else digits_aux f (n / 10) acc'
  end.
Definition itoa (n : Z) : string := digits_aux 64 n String.EmptyString.
Definition pad0 (w : nat) (s : string) : string :=
  String.append (String.string_of_list_ascii (repeat "0"%char (w - String.length s))) s.
Definition civil_from_days (z : Z) : Z * Z * Z :=
  let z := z + 719468 in
  let era := z / 146097 in
  let doe := z - era * 146097 in
  let yoe := (doe - doe / 1460 + doe / 36524 - doe / 146096) / 365 in
  let doy := doe - (365 * yoe + yoe / 4 - yoe / 100) in
  let mp := (5 * doy + 2) / 153 in
  let d := doy - (153 * mp + 2) / 5 + 1 in
  let m := if mp <? 10 then mp + 3 else mp - 9 in
  let y := yoe + era * 400 in
  ((if m <=? 2 then y + 1 else y), m, d).
Fixpoint trim_zeros (l : list ascii) : list ascii :=
  match l with
  | [] => []
  | c :: r => let r' := trim_zeros r in
              match r', c with [], "0"%char => [] | _, _ => c :: r' end
  end.
Definition frac_nano (ns : Z) : string :=
  match trim_zeros (String.list_ascii_of_string (pad0 9 (itoa ns))) with
  | [] => String.EmptyString
  | ds => String.String "."%char (String.string_of_list_ascii ds)
  end.
Definition format_rfc3339nano (t : Z) : string :=
  let secs := t / 1000000000 in
  let ns := t mod 1000000000 in
  let '(y, mo, d) := civil_from_days (secs / 86400) in
  let sod := secs mod 86400 in
  (pad0 4 (itoa y) ++ "-" ++ pad0 2 (itoa mo) ++ "-" ++ pad0 2 (itoa d) ++ "T" ++
   pad0 2 (itoa (sod / 3600)) ++ ":" ++ pad0 2 (itoa (sod mod 3600 / 60)) ++ ":" ++
   pad0 2 (itoa (sod mod 60)) ++ frac_nano ns ++ "Z")%string.
End TimeFormat.

(** ** [entries/entries.go] over the Cloud Datastore client.

    Wall-clock readings ([time.Now()]) are explicit arguments, in
    nanoseconds since the epoch.  The store is the set of [Entry] entities
    of the namespace, keyed by key name. *)
Module Entries.

Definition Time := Z.

(** [type Entry struct]: [ID] carries the tag [datastore:"-"]. *)
Record Entry := mkEntry {
  Title : string;
  Content : string;
  ID : string;
  Created : Time
}.

Definition set_ID (id : string) (e : Entry) : Entry :=
  mkEntry (Title e) (Content e) id (Created e).

(** Faults of the Datastore backend seen by one call: a failing commit,
    and a result iterator that breaks after [n] results. *)
Record Backend := mkBackend {
  write_fault : option string;
  read_fault : option (nat * string)
}.

Definition healthy : Backend := mkBackend None None.

(** *** The Datastore client ([cloud.google.com/go/datastore]). *)
Module DS.

(** Saving drops the [ID] field (tag ["-"]) and keeps [time.Time] values
    at microsecond precision. *)
Definition save (e : Entry) : Entry :=
  mkEntry (Title e) (Content e) "" (Created e - Created e mod 1000).

(** [Client.Get]: [ErrNoSuchEntity] on a missing key. *)
Definition get (st : gmap string Entry) (name : string) : Entry + string :=
  match st !! name with
  | Some e => inl e
  | None => inr "datastore: no such entity"%string
  end.

(** [Client.Put]: an upsert of the key. *)
Definition put (b : Backend) (st : gmap string Entry) (name : string) (e : Entry)
  : gmap string Entry * option string :=
  match write_fault b with
  | Some err => (st, Some err)
  | None => (<[name := save e]> st, None)
  end.

(** [Client.Delete]: deleting a key that has no entity commits as a no-op. *)
Definition delete (b : Backend) (st : gmap string Entry) (name : string)
  : gmap string Entry * option string :=
  match write_fault b with
  | Some err => (st, Some err)
  | None => (base.delete name st, None)
  end.

(** [Query]: a negative [limit] means unlimited ([NewQuery] starts at -1). *)
Record Query := mkQuery { q_limit : Z; q_offset : Z; q_err : option string }.

Definition NewQuery : Query := mkQuery (-1) 0 None.

Definition MinInt32 : Z := - 2 ^ 31.
Definition MaxInt32 : Z := 2 ^ 31 - 1.

Definition Limit (q : Query) (n : Z) : Query :=
  if (n <? MinInt32) || (MaxInt32 <? n)
  then mkQuery (q_limit q) (q_offset q) (Some "datastore: query limit overflow"%string)
  else mkQuery n (q_offset q) (q_err q).

Definition Offset (q : Query) (n : Z) : Query :=
  if n <? 0
  then mkQuery (q_limit q) (q_offset q) (Some "datastore: negative query offset"%string)
  else if MaxInt32 <? n
  then mkQuery (q_limit q) (q_offset q) (Some "datastore: query offset overflow"%string)
  else mkQuery (q_limit q) n (q_err q).

(** [Order("-created")]: by [created] descending; entities with equal
    [created] follow in ascending key order. *)
Definition before (a b : string * Entry) : Prop :=
  Created b.2 < Created a.2 \/ (Created a.2 = Created b.2 /\ String.leb a.1 b.1 = true).

#[global] Instance before_dec : RelDecision before.
Proof. intros a b. unfold before. apply _. Defined.

#[global] Instance before_total : Total before.
Proof.
  intros [ka ea] [kb eb]. unfold before; simpl.
  destruct (Z.lt_total (Created ea) (Created eb)) as [H|[H|H]]; [right; left; exact H| |left; left; exact H].
  destruct (String.leb_total ka kb); [left|right]; right; auto.
Qed.

Definition ordered (st : gmap string Entry) : list (string * Entry) :=
  merge_sort before (map_to_list st).

(** One call of [Iterator.Next]; the end of the list is [iterator.Done]. *)
Inductive NextResult :=
| IOk (key : string) (e : Entry)
| IErr (err : string).

(** Skipping and limiting over [int32] counts, without unary numbers. *)
Fixpoint drop_z {A} (n : Z) (l : list A) : list A :=
  match l with
  | [] => []
  | x :: l' => if n <=? 0 then l else drop_z (n - 1) l'
  end.

Fixpoint take_z {A} (n : Z) (l : list A) : list A :=
  match l with
  | [] => []
  | x :: l' => if n <=? 0 then [] else x :: take_z (n - 1) l'
  end.

(** [Client.Run]: a query carrying an error fails on the first [Next]. *)
Definition Run (b : Backend) (st : gmap string Entry) (q : Query) : list NextResult :=
  match q_err q with
  | Some err => [IErr err]
  | None =>
      let rs := drop_z (q_offset q) (ordered st) in
      let rs := if q_limit q <? 0 then rs else take_z (q_limit q) rs in
      let items := map (fun '(k, e) => IOk k e) rs in
      match read_fault b with
      | None => items
      | Some (n, err) => take n items ++ [IErr err]
      end
  end.

End DS.

(** [Entries.Get]: the loaded entity with [ID] set to the key name. *)
Definition Get (st : gmap string Entry) (id : string) : Entry + string :=
  match DS.get st id with
  | inr err => inr ("Failed to load /Entry," ++ id ++ ": " ++ err)%string
  | inl entry => inl (set_ID id entry)
  end.

(** The key name [fmt.Sprintf("%x", md5.Sum([]byte(content+title+
    time.Now().Format(time.RFC3339Nano))))]. *)
Definition insert_key (content title : string) (now : Time) : string :=
  MD5.hex_x (MD5.md5_sum (MD5.bytes_of_string
    (content ++ title ++ TimeFormat.format_rfc3339nano now)%string)).

(** [Entries.Insert]: [now_key] and [now_created] are the two [time.Now()]
    readings; the key name is returned whatever [Put] answers. *)
Definition Insert (b : Backend) (st : gmap string Entry) (now_key now_created : Time)
    (content title : string) : gmap string Entry * (string * option string) :=
  let name := insert_key content title now_key in
  let '(st', err) := DS.put b st name (mkEntry title content "" now_created) in
  (st', (name, err)).


(** [Entries.Delete]. *)
Definition Delete (b : Backend) (st : gmap string Entry) (id : string)
  : gmap string Entry * option string :=
  DS.delete b st id.

(** The read loop of [Entries.List]: [ret] and the lines logged so far. *)
Fixpoint list_loop (it : list DS.NextResult) (ret : list Entry) (log : list string)
  : list Entry * list string :=
  match it with
  | [] => (ret, log)
  | DS.IErr err :: _ => (ret, log ++ ["Failed while reading: " ++ err]%string)
  | DS.IOk key entry :: it' => list_loop it' (ret ++ [set_ID key entry]) log
  end.

(** [Entries.List]: the entries, the returned error, and the log lines. *)
Definition List (b : Backend) (st : gmap string Entry) (n offset : Z)
  : list Entry * option string * list string :=
  let q := DS.Offset (DS.Limit DS.NewQuery n) offset in
  let '(ret, log) := list_loop (DS.Run b st q) [] [] in
  (ret, None, log).

Definition entries_of (r : list Entry * option string * list string) : list Entry :=
  r.1.1.

End Entries.

(** ** [stream.go]: the create/update handlers and [sendWebMentions].

    The network is an environment answering each outbound call; every
    outbound call and every write of the HTTP response is an event of the
    trace.  Log lines are not modelled here. *)
Module Stream.
Import Entries.

(** An answer to an outbound HTTP request: a response, or a transport
    error (in which case the Go [*http.Response] is [nil]). *)
Inductive HttpResult :=
| HResp (status : Z)
| HErr (err : string).

Record Net := mkNet {
  (** [webmention.DiscoverLinksFromReader(content, source, "")] *)
  discover_links : string -> string -> list string + string;
  (** [m.DiscoverEndpoint(link)] *)
  discover_endpoint : string -> string + string;
  (** [m.SendWebmention(endpoint, source, link)] *)
  send_webmention : string -> string -> string -> HttpResult;
  (** [client.PostForm(url, values)] *)
  post_form : string -> list (string * string) -> HttpResult
}.

(** The configuration read through viper, and the markdown renderer
    [blackfriday.Run]. *)
Record Config := mkConfig {
  HOST : string;
  WEBSUB : string;
  BRIDGES : list string;
  render : string -> string
}.

Inductive Event :=
| EvDiscoverLinks (content source : string)
| EvDiscoverEndpoint (link : string)
| EvSendWebmention (endpoint source target : string)
| EvPostForm (url : string) (form : list (string * string))
| EvHttp (code : Z) (body : string).

(** How a call ends: it returns (with its [error] result), or it panics. *)
Inductive Exit :=
| Returned (err : option string)
| Panic (msg : string).

Definition permalinkFromId (cfg : Config) (id : string) : string :=
  (HOST cfg ++ "/entry/" ++ id)%string.

(** [strings.ReplaceAll(s, "\r\n", "\n")] *)
Fixpoint replace_crlf (s : string) : string :=
  match s with
  | String.EmptyString => String.EmptyString
  | String.String "013"%char (String.String "010"%char r) => String.String "010"%char (replace_crlf r)
  | String.String c r => String.String c (replace_crlf r)
  end.

Definition toDisplayContent (cfg : Config) (s : string) : string :=
  let content := replace_crlf s in
  let bridges := map (fun href => ("<a href='" ++ href ++ "'></a>")%string) (BRIDGES cfg) in
  (render cfg content ++ String.concat " " bridges)%string.

(** The [for _, link := range links] loop: the second component is the
    error of an early [return err]. *)
Fixpoint send_loop (net : Net) (source : string) (links : list string)
  : list Event * option string :=
  match links with
  | [] => ([], None)
  | link :: rest =>
      match discover_endpoint net link with
      | inr err => ([EvDiscoverEndpoint link], Some err)
      | inl endpoint =>
          (* the send outcome (error, status >= 400 or success) is only logged *)
          let '(evs, r) := send_loop net source rest in
          (EvDiscoverEndpoint link :: EvSendWebmention endpoint source link :: evs, r)
      end
  end.

Definition websub_form (cfg : Config) : list (string * string) :=
  [("hub.mode", "publish"); ("hub.url", HOST cfg ++ "/feed")]%string.

Definition sendWebMentions (cfg : Config) (net : Net) (id content : string)
  : list Event * Exit :=
  let source := permalinkFromId cfg id in
  let ev0 := EvDiscoverLinks content source in
  match discover_links net content source with
  | inr err => ([ev0], Returned (Some ("Failed to discover links in " ++ content ++ ": " ++ err)%string))
  | inl links =>
      let '(evs, r) := send_loop net source links in
      match r with
      | Some err => (ev0 :: evs, Returned (Some err))
      | None =>
          let hub := EvPostForm (WEBSUB cfg) (websub_form cfg) in
          match post_form net (WEBSUB cfg) (websub_form cfg) with
          (* [resp] is nil: [resp.StatusCode] dereferences it *)
          | HErr _ => (ev0 :: evs ++ [hub], Panic "invalid memory address or nil pointer dereference")
          | HResp _ => (ev0 :: evs ++ [hub], Returned None)
          end
      end
  end.

(** [adminNewHandler]: the new store, the trace, and how the handler ends. *)
Definition adminNewHandler (cfg : Config) (net : Net) (b : Backend) (st : gmap string Entry)
    (is_admin : bool) (now_key now_created : Time) (content title : string)
  : gmap string Entry * list Event * Exit :=
  if negb is_admin then (st, [EvHttp 401 "Unauthorized"], Returned None) else
  let '(st', (id, err)) := Insert b st now_key now_created content title in
  let ev_err := match err with Some _ => [EvHttp 500 "Failed to insert"] | None => [] end in
  let '(evs, ex) := sendWebMentions cfg net id (toDisplayContent cfg content) in
  match ex with
  | Panic m => (st', ev_err ++ evs, Panic m)
  | Returned _ => (st', ev_err ++ evs ++ [EvHttp 302 "/admin"], Returned None)
  end.

(** [adminEditHandler].  Its [entryDB.Update(ctx, raw)] takes the edited
    entry (the [entries] API of a later revision than [entries.go]); the
    handler only sees the error of that write, [update_err raw]. *)
Definition adminEditHandler (cfg : Config) (net : Net) (b : Backend) (st : gmap string Entry)
    (update_err : Entry -> option string) (is_admin : bool) (id method action title content : string)
  : list Event * Exit :=
  if negb is_admin then ([EvHttp 401 "Unauthorized"], Returned None) else
  match Get st id with
  | inr _ => ([EvHttp 404 "404 page not found"], Returned None)
  | inl raw =>
      let page := EvHttp 200 "adminEdit.html" in
      if String.eqb method "POST" then
        if String.eqb action "update" then
          let raw' := mkEntry title content (ID raw) (Created raw) in
          match update_err raw' with
          | Some _ => ([EvHttp 500 "Failed to write."], Returned None)
          | None =>
              let '(evs, ex) := sendWebMentions cfg net id (toDisplayContent cfg (Content raw')) in
              match ex with
              | Panic m => (evs, Panic m)
              | Returned _ => (evs ++ [page], Returned None)
              end
          end
        else if String.eqb action "delete" then
          match (Delete b st id).2 with
          | Some _ => ([EvHttp 500 "Failed to delete."], Returned None)
          | None => ([EvHttp 302 "/admin"], Returned None)
          end
        else ([EvHttp 400 "POST request failed to include action."], Returned None)
      else ([page], Returned None)
  end.

(** What the client receives: a panicking handler has its connection
    closed by [net/http] without a response; otherwise the first header
    written wins (later [WriteHeader] calls are superfluous). *)
Inductive Reply :=
| Response (code : Z) (body : string)
| Aborted.

Fixpoint first_write (evs : list Event) : option (Z * string) :=
  match evs with
  | [] => None
  | EvHttp code body :: _ => Some (code, body)
  | _ :: evs' => first_write evs'
  end.

Definition client_view (evs : list Event) (ex : Exit) : Reply :=
  match ex with
  | Panic _ => Aborted
  | Returned _ =>
      match first_write evs with
      | Some (code, body) => Response code body
      | None => Response 200 ""
      end
  end.

(** Whether a step of the trace belongs to the notification phase. *)
Definition notification_event (e : Event) : bool :=
  match e with
  | EvHttp _ _ => false
  | _ => true
  end.

End Stream.

(** ** More of [stream.go]: request parsing, pages and the share target. *)
Module Pages.
Import Entries Stream.

(** [strconv.ParseInt(s, 10, 32)]: an optional sign, then one or more
    decimal digits, the value within [int32]; anything else is an error. *)
Definition digit_val (c : ascii) : option Z :=
  let n := Z.of_N (N_of_ascii c) in
  if (48 <=? n) && (n <=? 57) then Some (n - 48) else None.

Fixpoint parse_digits (l : list ascii) (acc : Z) : option Z :=
  match l with
  | [] => Some acc
  | c :: r => match digit_val c with
              | Some d => parse_digits r (acc * 10 + d)
              | None => None
              end
  end.

Definition ParseInt32 (s : string) : option Z :=
  let '(neg, body) :=
    match String.list_ascii_of_string s with
    | "+"%char :: r => (false, r)
    | "-"%char :: r => (true, r)
    | l => (false, l)
    end in
  match body with
  | [] => None
  | _ =>
      match parse_digits body 0 with
      | None => None
      | Some un =>
          if neg then (if 2 ^ 31 <? un then None else Some (- un))
          else (if 2 ^ 31 <=? un then None else Some un)
      end
  end.

(** [parseWithDefault] *)
Definition parseWithDefault (s : string) (defaultValue : Z) : Z :=
  match ParseInt32 s with
  | Some n => n
  | None => defaultValue
  end.

(** The ["trunc"] template function. *)
Definition trunc (s : string) : string :=
  if (80 <? String.length s)%nat then (String.substring 0 80 s ++ "...")%string else s.

(** [indexHandler] with the form values of [limit] and [offset] ([""] when
    absent): [None] when it returns early on a [List] error, otherwise the
    entries handed to [toDisplaySlice] and the [Offset] of the page context. *)
Definition indexHandler (b : Backend) (st : gmap string Entry) (limit_s offset_s : string)
  : option (list Entry * Z) :=
  let limit := parseWithDefault limit_s 20 in
  let offset := parseWithDefault offset_s 0 in
  let '(ents, err, _) := List b st limit offset in
  match err with
  | Some _ => None
  | None =>
      let next := if Z.of_nat (List.length ents) <? limit then -1 else offset + limit in
      Some (ents, next)
  end.

(** [entryHandler]: a 404, or the entry template rendered for [raw]. *)
Inductive EntryReply :=
| EntryNotFound
| EntryPage (raw : Entry).

Definition entryHandler (st : gmap string Entry) (id : string) : EntryReply :=
  match Get st id with
  | inr _ => EntryNotFound
  | inl raw => EntryPage raw
  end.

(** [url.Values] and its [Get]: the first value of the key, or [""]. *)
Definition form_get (form : gmap string (list string)) (k : string) : string :=
  match form !! k with
  | Some (v :: _) => v
  | _ => ""%string
  end.

(** What [goquery.NewDocument(u)] yields: the [href] of the first
    [link[rel=canonical]] (if it has one) and the text of the [title]. *)
Record Doc := mkDoc { canonical_href : option string; title_text : string }.

Record ShareEnv := mkShareEnv {
  (** whether [url.Parse(u)] succeeds *)
  url_parse_ok : string -> bool;
  (** [goquery.NewDocument(u)] *)
  fetch_document : string -> Doc + string
}.

(** [shareTargetToMap]: the URLs fetched, and the returned map. *)
Definition shareTargetToMap (env : ShareEnv) (form : gmap string (list string))
  : list string * gmap string string :=
  let ret := <["content" := form_get form "text"]> (<["title" := form_get form "title"]> ∅) in
  let u := form_get form "text" in
  let u := if url_parse_ok env u then u else ""%string in
  let u := if String.eqb u "" then form_get form "url" else u in
  if String.eqb u "" then ([], ret) else
  match fetch_document env u with
  | inr _ => ([u], ret)
  | inl doc =>
      let u' := match canonical_href doc with Some h => h | None => u end in
      let t := title_text doc in
      ([u], <["content" := ("<a class='u-in-reply-to' href='" ++ u' ++ "'>" ++ t ++ "</a>")%string]>
              (<["title" := t]> ret))
  end.

End Pages.

(** ** Views of query results used in the proofs. *)
Module Rows.
Import Entries.

Definition as_iter (r : string * Entry) : DS.NextResult := let '(k, e) := r in DS.IOk k e.

Definition as_entry (r : string * Entry) : Entry := let '(k, e) := r in set_ID k e.

(** The result of a query over a healthy backend. *)
Definition query_rows (st : gmap string Entry) (q : DS.Query) : list (string * Entry) :=
  let rs := DS.drop_z (DS.q_offset q) (DS.ordered st) in
  if DS.q_limit q <? 0 then rs else DS.take_z (DS.q_limit q) rs.

(** Characters other than a carriage return. *)
Definition not_cr (c : ascii) : bool := negb (Ascii.eqb c "013"%char).

End Rows.

(** ** Concrete inputs. *)
Module Samples.
Import Entries Stream.


Definition t_same : Time := 1704164645123456789.

Definition st_two : gmap string Entry :=
  <["b" := mkEntry "t2" "c2" "" 2000]> {["a" := mkEntry "t1" "c1" "" 1000]}.

Definition st_one : gmap string Entry := {["a" := mkEntry "t1" "c1" "" 1000]}.

(** Concrete inputs: a site, a hub, and two linked targets of which the
    first advertises no webmention endpoint. *)
Definition cfg0 : Config := mkConfig "https://example.org" "https://hub.example" [] (fun s => s).

Definition link_a : string := "https://a.example/post".
Definition link_b : string := "https://b.example/post".

Definition net_two_links (hub : HttpResult) : Net :=
  mkNet (fun _ _ => inl [link_a; link_b])
        (fun l => if String.eqb l link_a then inr "no webmention endpoint found"%string
                  else inl "https://b.example/webmention"%string)
        (fun _ _ _ => HResp 202)
        (fun _ _ => hub).

(** Content without links, and a hub answering [hub]. *)
Definition net_no_links (hub : HttpResult) : Net :=
  mkNet (fun _ _ => inl []) (fun _ => inr "unreachable"%string) (fun _ _ _ => HResp 202) (fun _ _ => hub).

(** The two linked targets both advertise an endpoint. *)
Definition net_all_found (hub : HttpResult) : Net :=
  mkNet (fun _ _ => inl [link_a; link_b]) (fun l => inl (l ++ "/webmention")%string)
        (fun _ _ _ => HResp 500) (fun _ _ => hub).

Definition st_c9 : gmap string Entry := {["id1" := mkEntry "t" "c" "" 1000]}.

End Samples.

(** * Properties *)

Module EntriesFacts.
Import Entries Rows.

Lemma list_loop_oks (l : list (string * Entry)) ret log :
  list_loop (map as_iter l) ret log = (ret ++ map as_entry l, log).
Proof.
  revert ret. induction l as [|[k e] l IH]; intros ret; simpl.
  - by rewrite app_nil_r.
  - rewrite IH. by rewrite <- app_assoc.
Qed.

Lemma list_loop_oks_err (l : list (string * Entry)) err rest ret log :
  list_loop (map as_iter l ++ DS.IErr err :: rest) ret log
  = (ret ++ map as_entry l, log ++ ["Failed while reading: " ++ err]%string).
Proof.
  revert ret. induction l as [|[k e] l IH]; intros ret; simpl.
  - by rewrite app_nil_r.
  - rewrite IH. by rewrite <- app_assoc.
Qed.

Lemma take_z_take {A} (n : Z) (l : list A) : DS.take_z n l = take (Z.to_nat n) l.
Proof.
  revert n. induction l as [|x l IH]; intros n; simpl.
  - by rewrite take_nil.
  - destruct (Z.leb_spec n 0).
    + by replace (Z.to_nat n) with 0%nat by lia.
    + rewrite IH. replace (Z.to_nat n) with (S (Z.to_nat (n - 1))) by lia. done.
Qed.

Lemma drop_z_drop {A} (n : Z) (l : list A) : DS.drop_z n l = drop (Z.to_nat n) l.
Proof.
  revert n. induction l as [|x l IH]; intros n; simpl.
  - by rewrite drop_nil.
  - destruct (Z.leb_spec n 0).
    + by replace (Z.to_nat n) with 0%nat by lia.
    + rewrite IH. replace (Z.to_nat n) with (S (Z.to_nat (n - 1))) by lia. done.
Qed.

Lemma Run_rows b st q :
  DS.q_err q = None ->
  DS.Run b st q = match read_fault b with
                  | None => map as_iter (query_rows st q)
                  | Some (n, err) => take n (map as_iter (query_rows st q)) ++ [DS.IErr err]
                  end.
Proof.
  intros H. unfold DS.Run, query_rows. rewrite H.
  assert (Hm : forall l, map (fun '(k, e) => DS.IOk k e) l = map as_iter l)
    by (intros l; apply map_ext; intros [k e]; reflexivity).
  by rewrite Hm.
Qed.

Lemma List_rows b st n offset :
  DS.q_err (DS.Offset (DS.Limit DS.NewQuery n) offset) = None ->
  read_fault b = None ->
  List b st n offset = (map as_entry (query_rows st (DS.Offset (DS.Limit DS.NewQuery n) offset)), None, []).
Proof.
  intros Hq Hb. unfold List. rewrite Run_rows by exact Hq. rewrite Hb, list_loop_oks. done.
Qed.

Lemma put_ok b st name e :
  write_fault b = None -> DS.put b st name e = (<[name := DS.save e]> st, None).
Proof. unfold DS.put. intros ->. done. Qed.

Lemma length_string_of_list_ascii (l : list ascii) :
  String.length (String.string_of_list_ascii l) = List.length l.
Proof. induction l as [|c l IH]; simpl; [done | by rewrite IH]. Qed.

Lemma length_hex_x (bs : list Z) : String.length (MD5.hex_x bs) = (2 * List.length bs)%nat.
Proof.
  unfold MD5.hex_x. rewrite length_string_of_list_ascii.
  induction bs as [|b bs IH]; simpl; [done | rewrite IH; lia].
Qed.

Lemma length_md5_sum (msg : list Z) : List.length (MD5.md5_sum msg) = 16%nat.
Proof.
  unfold MD5.md5_sum.
  destruct (MD5.md5_blocks _ _ _) as [[[a b] c] d]. done.
Qed.

Lemma length_insert_key c t now : String.length (insert_key c t now) = 32%nat.
Proof. unfold insert_key. by rewrite length_hex_x, length_md5_sum. Qed.

End EntriesFacts.

Module EntryStore.
Import Entries Rows Samples EntriesFacts.

(** ** Update *)







(** ** Delete *)




(** ** Insert *)

(** C6 (counterexample): two [Insert]s with the same content and title at
    the same clock reading return the same id; the second returns an id
    already issued and stored. *)
Lemma Insert_same_instant_same_id :
  let r1 := Insert healthy ∅ t_same t_same "c" "t" in
  let r2 := Insert healthy r1.1 t_same t_same "c" "t" in
  r2.2.1 = r1.2.1 /\ is_Some (r1.1 !! r1.2.1) /\ r2.2.2 = None.
Proof. vm_compute. split; [reflexivity|]. split; [eexists; reflexivity | reflexivity]. Qed.

(** C6 (amended): [Insert] returns as id the 32 lowercase hex digits of
    the MD5 of [content ++ title ++ RFC3339Nano(now)], so the id is
    non-empty and a function of (content, title, clock reading); it is not
    checked against existing ids: a successful write stores the entry under
    it, replacing any entry already there. *)
Theorem Insert_id_shape (b : Backend) (st : gmap string Entry) (now_key now_created : Time)
    (content title : string) :
  let '(st', (id, err)) := Insert b st now_key now_created content title in
  id = insert_key content title now_key /\ String.length id = 32%nat /\
  (write_fault b = None ->
   err = None /\ st' = <[id := DS.save (mkEntry title content "" now_created)]> st).
Proof.
  unfold Insert, DS.put. destruct (write_fault b) as [e|]; simpl.
  - split; [done|]. split; [apply length_insert_key | intros H; discriminate H].
  - split; [done|]. split; [apply length_insert_key | done].
Qed.

(** Two clock readings one second apart give different ids here. *)
Example insert_key_other_instant :
  insert_key "c" "t" t_same <> insert_key "c" "t" (t_same + 1000000000).
Proof. vm_compute. discriminate. Qed.

(** ** List *)

Lemma query_in_range (n k : Z) :
  DS.MinInt32 <= n <= DS.MaxInt32 -> 0 <= k <= DS.MaxInt32 ->
  DS.Offset (DS.Limit DS.NewQuery n) k = DS.mkQuery n k None.
Proof.
  intros Hn Hk. unfold DS.Limit, DS.Offset.
  destruct (Z.ltb_spec n DS.MinInt32); [lia|]. destruct (Z.ltb_spec DS.MaxInt32 n); [lia|].
  simpl. destruct (Z.ltb_spec k 0); [lia|]. destruct (Z.ltb_spec DS.MaxInt32 k); [lia|]. done.
Qed.

Lemma List_in_range (st : gmap string Entry) (n k : Z) :
  0 <= n <= DS.MaxInt32 -> 0 <= k <= DS.MaxInt32 ->
  entries_of (List healthy st n k)
  = map as_entry (take (Z.to_nat n) (drop (Z.to_nat k) (DS.ordered st))).
Proof.
  intros Hn Hk.
  assert (Hq : DS.Offset (DS.Limit DS.NewQuery n) k = DS.mkQuery n k None)
    by (apply query_in_range; unfold DS.MinInt32 in *; lia).
  rewrite List_rows; [| by rewrite Hq | done].
  rewrite Hq. unfold query_rows. simpl.
  destruct (Z.ltb_spec n 0); [lia|]. by rewrite take_z_take, drop_z_drop.
Qed.

(** A limit above the [int32] range makes the query fail on its first
    result: [List] returns no entries. *)
Lemma List_limit_overflow (b : Backend) (st : gmap string Entry) (n k : Z) :
  DS.MaxInt32 < n -> entries_of (List b st n k) = [].
Proof.
  intros Hn. unfold List, DS.Run, DS.Offset, DS.Limit.
  destruct (Z.ltb_spec DS.MaxInt32 n); [|lia]. rewrite orb_true_r. simpl.
  destruct (k <? 0); [reflexivity|]. destruct (DS.MaxInt32 <? k); reflexivity.
Qed.

Lemma Sorted_take_map (l : list (string * Entry)) (m : nat) :
  Sorted DS.before l ->
  Sorted (fun a b => Created b <= Created a) (map as_entry (take m l)).
Proof.
  revert m. induction l as [|[k e] l IH]; intros m Hs.
  - by rewrite take_nil.
  - destruct m as [|m]; simpl; [constructor|].
    apply Sorted_inv in Hs as [Hs Hhd]. constructor; [by apply IH|].
    destruct l as [|[k' e'] l]; destruct m; simpl; constructor.
    apply HdRel_inv in Hhd. unfold DS.before in Hhd. simpl in Hhd. unfold as_entry, set_ID. simpl. lia.
Qed.

(** C7 (counterexample): with [n = 2^31 - 1] and [k = 1], [List(n+k, 0)]
    is outside the Datastore limit range and comes back empty, while
    [List(n, k)] returns the older of two entries. *)
Lemma List_page_overflow :
  entries_of (List healthy st_two DS.MaxInt32 1)
  <> drop 1 (entries_of (List healthy st_two (DS.MaxInt32 + 1) 0)).
Proof. vm_compute. discriminate. Qed.

(** C7 (amended): over a backend whose reads do not fail, for all
    [n, k >= 0], [List(n, 0)] returns at most [n] entries in non-increasing
    [created] order; when [n + k] fits the Datastore query limit
    ([2^31 - 1]), [List(n, k)] is [List(n+k, 0)] without its first [k]
    entries, and beyond that range [List(n+k, 0)] is empty. *)
Theorem List_pages (st : gmap string Entry) (n k : Z) :
  0 <= n -> 0 <= k ->
  let first := entries_of (List healthy st n 0) in
  Z.of_nat (List.length first) <= n /\
  Sorted (fun a b => Created b <= Created a) first /\
  (n + k <= DS.MaxInt32 ->
   entries_of (List healthy st n k) = drop (Z.to_nat k) (entries_of (List healthy st (n + k) 0))) /\
  (DS.MaxInt32 < n + k -> entries_of (List healthy st (n + k) 0) = []).
Proof.
  intros Hn Hk. cbv zeta.
  split; [|split; [|split]].
  - destruct (Z.leb_spec n DS.MaxInt32).
    + rewrite List_in_range by (unfold DS.MaxInt32 in *; lia).
      rewrite length_map, length_take.
      pose proof (Nat.le_min_l (Z.to_nat n) (List.length (drop (Z.to_nat 0) (DS.ordered st)))). lia.
    + rewrite List_limit_overflow by lia. simpl. lia.
  - destruct (Z.leb_spec n DS.MaxInt32).
    + rewrite List_in_range by (unfold DS.MaxInt32 in *; lia). rewrite drop_0.
      apply Sorted_take_map. unfold DS.ordered. apply Sorted_merge_sort. exact DS.before_total.
    + rewrite List_limit_overflow by lia. constructor.
  - intros Hnk. rewrite !List_in_range by (unfold DS.MaxInt32 in *; lia). rewrite drop_0.
    rewrite skipn_map. f_equal.
    replace (Z.to_nat (n + k)) with (Z.to_nat k + Z.to_nat n)%nat by lia.
    by rewrite take_drop_commute.
  - intros Hnk. apply List_limit_overflow. exact Hnk.
Qed.

Lemma List_pages_witness :
  (0 <= 1 /\ 0 <= 1) /\
  (let first := entries_of (List healthy st_two 1 0) in
   Z.of_nat (List.length first) <= 1 /\
   Sorted (fun a b => Created b <= Created a) first /\
   (1 + 1 <= DS.MaxInt32 ->
    entries_of (List healthy st_two 1 1) = drop (Z.to_nat 1) (entries_of (List healthy st_two (1 + 1) 0))) /\
   (DS.MaxInt32 < 1 + 1 -> entries_of (List healthy st_two (1 + 1) 0) = [])).
Proof. split; [lia|]. apply (List_pages st_two 1 1); lia. Defined.

(** C8 (counterexample): a negative limit is no limit: [List(-1, 0)] over a
    one-entry store returns that entry. *)
Lemma List_negative_limit_nonempty :
  entries_of (List healthy st_one (-1) 0) = [mkEntry "t1" "c1" "a" 1000].
Proof. vm_compute. reflexivity. Qed.

(** C8 (amended): [List(0, offset)] returns the empty sequence for every
    offset; a negative limit within the [int32] range means no limit:
    [List(n, k)] then returns every entry after the first [k] in
    [created]-descending order. *)
Theorem List_nonpositive_limit (st : gmap string Entry) (n k : Z) :
  DS.MinInt32 <= n < 0 -> 0 <= k <= DS.MaxInt32 ->
  (forall b offset, entries_of (List b st 0 offset) = []) /\
  entries_of (List healthy st n k) = map as_entry (drop (Z.to_nat k) (DS.ordered st)).
Proof.
  intros Hn Hk. split.
  - intros b offset. unfold List, DS.Run.
    unfold DS.Limit at 1. simpl.
    unfold DS.Offset. destruct (Z.ltb_spec offset 0); [done|].
    destruct (Z.ltb_spec DS.MaxInt32 offset); [done|]. simpl.
    rewrite take_z_take. simpl.
    destruct (read_fault b) as [[m err]|]; simpl; [by rewrite take_nil | done].
  - rewrite List_rows; [| by rewrite query_in_range by lia | done].
    rewrite query_in_range by lia. unfold query_rows. simpl.
    destruct (Z.ltb_spec n 0); [|lia]. by rewrite drop_z_drop.
Qed.

Lemma List_nonpositive_limit_witness :
  (DS.MinInt32 <= -1 < 0 /\ 0 <= 0 <= DS.MaxInt32) /\
  ((forall b offset, entries_of (List b st_one 0 offset) = []) /\
   entries_of (List healthy st_one (-1) 0) = map as_entry (drop (Z.to_nat 0) (DS.ordered st_one))).
Proof.
  split; [unfold DS.MinInt32, DS.MaxInt32; lia|].
  apply (List_nonpositive_limit st_one (-1) 0); unfold DS.MinInt32, DS.MaxInt32; lia.
Defined.

(** C10: [List] always returns a nil error; when the result iterator fails
    after [k] results, [List] logs one line and returns the first [k]
    entries of the complete listing, again with a nil error. *)
Theorem List_truncates_silently (st : gmap string Entry) (n offset : Z) (k : nat) (err : string) :
  let full := List healthy st n offset in
  let cut := List (mkBackend None (Some (k, err))) st n offset in
  (forall b, (List b st n offset).1.2 = None) /\
  full.1.2 = None /\ cut.1.2 = None /\
  entries_of cut = take k (entries_of full) /\
  List.length cut.2 = 1%nat.
Proof.
  cbv zeta. split; [|split; [|split]].
  - intros b. unfold List. by destruct (list_loop _ _ _).
  - unfold List. by destruct (list_loop _ _ _).
  - unfold List. by destruct (list_loop _ _ _).
  - destruct (DS.q_err (DS.Offset (DS.Limit DS.NewQuery n) offset)) as [e|] eqn:Hq.
    + unfold List, DS.Run. rewrite Hq. simpl. by destruct k.
    + rewrite (List_rows healthy st n offset Hq eq_refl).
      unfold List. rewrite Run_rows by exact Hq. simpl.
      rewrite firstn_map, list_loop_oks_err. unfold entries_of. simpl. split; [by rewrite firstn_map | done].
Qed.

End EntryStore.

Module Notification.
Import Entries Rows Samples EntriesFacts Stream.

Lemma send_loop_no_http (net : Net) (source : string) (links : list string) :
  Forall (fun e => notification_event e = true) (send_loop net source links).1.
Proof.
  induction links as [|link rest IH]; simpl; [constructor|].
  destruct (discover_endpoint net link) as [endpoint|err].
  - destruct (send_loop net source rest) as [evs r]. simpl in *. repeat constructor; done.
  - repeat constructor.
Qed.

(** [sendWebMentions] never writes the HTTP response. *)
Lemma sendWebMentions_no_http cfg net id content :
  Forall (fun e => notification_event e = true) (sendWebMentions cfg net id content).1.
Proof.
  unfold sendWebMentions.
  destruct (discover_links net _ _) as [links|err]; [|repeat constructor].
  pose proof (send_loop_no_http net (permalinkFromId cfg id) links) as H.
  destruct (send_loop net _ links) as [evs r]. simpl in H.
  destruct r as [err|].
  - constructor; done.
  - assert (Hhub : Forall (fun e => notification_event e = true)
                     [EvPostForm (WEBSUB cfg) (websub_form cfg)]) by (constructor; [done | constructor]).
    destruct (post_form net _ _); simpl; (constructor; [done|]); by apply Forall_app_2.
Qed.

(** [sendWebMentions] starts by discovering the links of the content. *)
Lemma sendWebMentions_first cfg net id content :
  exists rest, (sendWebMentions cfg net id content).1
               = EvDiscoverLinks content (permalinkFromId cfg id) :: rest.
Proof.
  unfold sendWebMentions.
  destruct (discover_links net _ _) as [links|err]; [|eexists; reflexivity].
  destruct (send_loop net _ links) as [evs [err|]]; [eexists; reflexivity|].
  destruct (post_form net _ _); eexists; reflexivity.
Qed.

(** When every link found has an endpoint, the loop ends without error. *)
Lemma send_loop_found (net : Net) (source : string) (links : list string) :
  (forall l, In l links -> exists ep, discover_endpoint net l = inl ep) ->
  (send_loop net source links).2 = None.
Proof.
  induction links as [|l rest IH]; intros H; [reflexivity|]. simpl.
  destruct (H l (or_introl eq_refl)) as [ep ->].
  specialize (IH (fun l' Hl' => H l' (or_intror Hl'))).
  destruct (send_loop net source rest) as [evs r]. exact IH.
Qed.

(** When the notification phase reaches the hub and the hub request fails
    with a transport error, [sendWebMentions] panics. *)
Lemma sendWebMentions_hub_error_panics cfg net id content links err :
  discover_links net content (permalinkFromId cfg id) = inl links ->
  (forall l, In l links -> exists ep, discover_endpoint net l = inl ep) ->
  post_form net (WEBSUB cfg) (websub_form cfg) = HErr err ->
  (sendWebMentions cfg net id content).2 = Panic "invalid memory address or nil pointer dereference".
Proof.
  intros Hl Hall Hp. unfold sendWebMentions. rewrite Hl.
  pose proof (send_loop_found net (permalinkFromId cfg id) links Hall) as Hr.
  destruct (send_loop net _ links) as [evs r]. simpl in Hr. subst r. rewrite Hp. reflexivity.
Qed.

Lemma first_write_skip (evs rest : list Event) :
  Forall (fun e => notification_event e = true) evs -> first_write (evs ++ rest) = first_write rest.
Proof.
  induction 1 as [|e evs He _ IH]; simpl; [done|].
  destruct e; simpl in He; try discriminate; exact IH.
Qed.

(** C2 (code_bug): when endpoint discovery fails for the first discovered
    link, [sendWebMentions] returns that error at once: no later link is
    probed or sent to, and the hub is not notified. *)
Theorem sendWebMentions_stops_at_failed_discovery (cfg : Config) (net : Net) (id content : string)
    (link : string) (rest : list string) (err : string) :
  discover_links net content (permalinkFromId cfg id) = inl (link :: rest) ->
  discover_endpoint net link = inr err ->
  sendWebMentions cfg net id content
  = ([EvDiscoverLinks content (permalinkFromId cfg id); EvDiscoverEndpoint link], Returned (Some err)).
Proof. intros Hl He. unfold sendWebMentions. rewrite Hl. simpl. by rewrite He. Qed.

Lemma sendWebMentions_stops_at_failed_discovery_witness :
  (discover_links (net_two_links (HResp 204)) "content" (permalinkFromId cfg0 "id1")
     = inl (link_a :: [link_b]) /\
   discover_endpoint (net_two_links (HResp 204)) link_a = inr "no webmention endpoint found"%string) /\
  sendWebMentions cfg0 (net_two_links (HResp 204)) "id1" "content"
  = ([EvDiscoverLinks "content" (permalinkFromId cfg0 "id1"); EvDiscoverEndpoint link_a],
     Returned (Some "no webmention endpoint found"%string)).
Proof.
  split; [split; reflexivity|].
  apply (sendWebMentions_stops_at_failed_discovery cfg0 (net_two_links (HResp 204)) "id1" "content"
           link_a [link_b]); reflexivity.
Defined.

(** C3 (code_bug): when the [Insert] of [adminNewHandler] fails, the
    handler writes the 500 error and then carries on: the notification
    phase starts (link discovery on the rendered content, under the key
    name [Insert] computed) and a redirect follows. *)
Theorem adminNew_insert_failure_enters_notification (cfg : Config) (net : Net)
    (st : gmap string Entry) (rf : option (nat * string)) (e : string)
    (now_key now_created : Time) (content title : string) :
  let '(st', evs, ex) := adminNewHandler cfg net (mkBackend (Some e) rf) st true
                                         now_key now_created content title in
  st' = st /\
  first_write evs = Some (500, "Failed to insert"%string) /\
  In (EvDiscoverLinks (toDisplayContent cfg content)
        (permalinkFromId cfg (insert_key content title now_key))) evs.
Proof.
  unfold adminNewHandler. simpl negb. cbv iota.
  unfold Insert, DS.put. simpl.
  destruct (sendWebMentions_first cfg net (insert_key content title now_key)
              (toDisplayContent cfg content)) as [rest Hfirst].
  destruct (sendWebMentions cfg net _ _) as [evs ex]. simpl in Hfirst. subst evs.
  destruct ex; simpl; (split; [done|]); split; try done; right; left; done.
Qed.

(** C9 (code_bug): once the store write has succeeded, when every link of
    the rendered content advertises an endpoint but the hub publish request
    fails with a transport error, [sendWebMentions] reads the status of the
    nil response and panics: the create and the update handler then send
    the client no response at all instead of their success reply. *)
Theorem hub_transport_error_aborts_handlers (cfg : Config) (net : Net) (b : Backend)
    (st : gmap string Entry) (update_err : Entry -> option string) (now_key now_created : Time)
    (id title content : string) (raw : Entry) (err : string) :
  write_fault b = None ->
  Get st id = inl raw -> update_err (mkEntry title content (ID raw) (Created raw)) = None ->
  (forall source, exists links,
     discover_links net (toDisplayContent cfg content) source = inl links /\
     forall l, In l links -> exists ep, discover_endpoint net l = inl ep) ->
  post_form net (WEBSUB cfg) (websub_form cfg) = HErr err ->
  (let '(_, evs, ex) := adminNewHandler cfg net b st true now_key now_created content title in
   client_view evs ex = Aborted) /\
  (let '(evs, ex) := adminEditHandler cfg net b st update_err true id "POST" "update" title content in
   client_view evs ex = Aborted).
Proof.
  intros Hb Hget Hupd Hdisc Hp. split.
  - unfold adminNewHandler. simpl negb. cbv iota.
    unfold Insert. rewrite put_ok by exact Hb. cbv iota.
    destruct (Hdisc (permalinkFromId cfg (insert_key content title now_key))) as (links & Hl & Hall).
    pose proof (sendWebMentions_hub_error_panics cfg net _ _ links err Hl Hall Hp) as Hx.
    destruct (sendWebMentions cfg net _ _) as [evs ex]. simpl in Hx. subst ex. reflexivity.
  - unfold adminEditHandler. simpl negb. cbv iota. rewrite Hget. simpl. rewrite Hupd.
    destruct (Hdisc (permalinkFromId cfg id)) as (links & Hl & Hall).
    pose proof (sendWebMentions_hub_error_panics cfg net _ _ links err Hl Hall Hp) as Hx.
    destruct (sendWebMentions cfg net _ _) as [evs ex]. simpl in Hx. subst ex. reflexivity.
Qed.

Lemma hub_transport_error_aborts_handlers_witness :
  (write_fault healthy = None /\
   Get st_c9 "id1" = inl (mkEntry "t" "c" "id1" 1000) /\
   (fun _ : Entry => @None string) (mkEntry "t2" "c2" (ID (mkEntry "t" "c" "id1" 1000))
                                    (Created (mkEntry "t" "c" "id1" 1000))) = None /\
   (forall source, exists links,
      discover_links (net_no_links (HErr "dial tcp: i/o timeout")) (toDisplayContent cfg0 "c2") source = inl links /\
      forall l, In l links -> exists ep, discover_endpoint (net_no_links (HErr "dial tcp: i/o timeout")) l = inl ep) /\
   post_form (net_no_links (HErr "dial tcp: i/o timeout")) (WEBSUB cfg0) (websub_form cfg0)
   = HErr "dial tcp: i/o timeout") /\
  ((let '(_, evs, ex) := adminNewHandler cfg0 (net_no_links (HErr "dial tcp: i/o timeout")) healthy st_c9 true
                           2000 2000 "c2" "t2" in
    client_view evs ex = Aborted) /\
   (let '(evs, ex) := adminEditHandler cfg0 (net_no_links (HErr "dial tcp: i/o timeout")) healthy st_c9
                        (fun _ => None) true "id1" "POST" "update" "t2" "c2" in
    client_view evs ex = Aborted)).
Proof.
  assert (Hd : forall source, exists links,
      discover_links (net_no_links (HErr "dial tcp: i/o timeout")) (toDisplayContent cfg0 "c2") source = inl links /\
      forall l, In l links -> exists ep, discover_endpoint (net_no_links (HErr "dial tcp: i/o timeout")) l = inl ep)
    by (intros source; exists []; split; [reflexivity | intros l []]).
  split.
  - split; [reflexivity|]. split; [reflexivity|]. split; [reflexivity|]. split; [exact Hd | reflexivity].
  - apply (hub_transport_error_aborts_handlers cfg0 (net_no_links (HErr "dial tcp: i/o timeout")) healthy
             st_c9 (fun _ => None) 2000 2000 "id1" "t2" "c2" (mkEntry "t" "c" "id1" 1000) "dial tcp: i/o timeout");
      [reflexivity | reflexivity | reflexivity | exact Hd | reflexivity].
Defined.

End Notification.

(** ** Request parsing and text helpers of [stream.go] *)
Module TextFacts.
Import Entries Rows Stream Pages.

Lemma parse_digits_nonneg (l : list ascii) (acc un : Z) :
  0 <= acc -> parse_digits l acc = Some un -> 0 <= un.
Proof.
  revert acc. induction l as [|c l IH]; intros acc Hacc H; simpl in H.
  - injection H as <-. exact Hacc.
  - unfold digit_val in H.
    destruct ((48 <=? Z.of_N (N_of_ascii c)) && (Z.of_N (N_of_ascii c) <=? 57)) eqn:Hd; [|discriminate].
    apply andb_prop in Hd as [Hd1 _]. apply Z.leb_le in Hd1.
    eapply IH; [|exact H]. lia.
Qed.

Lemma ParseInt32_range (s : string) (n : Z) :
  ParseInt32 s = Some n -> DS.MinInt32 <= n <= DS.MaxInt32.
Proof.
  unfold ParseInt32, DS.MinInt32, DS.MaxInt32.
  destruct (match String.list_ascii_of_string s with
            | "+"%char :: r => (false, r) | "-"%char :: r => (true, r) | l => (false, l) end)
    as [neg body].
  destruct body as [|c r]; [discriminate|].
  destruct (parse_digits (c :: r) 0) as [un|] eqn:Hp; [|discriminate].
  pose proof (parse_digits_nonneg _ 0 un ltac:(lia) Hp).
  destruct neg.
  - destruct (Z.ltb_spec (2 ^ 31) un); [discriminate|]. intros H'; injection H' as <-. lia.
  - destruct (Z.leb_spec (2 ^ 31) un); [discriminate|]. intros H'; injection H' as <-. lia.
Qed.

Lemma digit_val_char (m : Z) :
  0 <= m < 10 -> digit_val (ascii_of_nat (Z.to_nat (48 + m))) = Some m.
Proof.
  intros Hm.
  assert (m = 0 \/ m = 1 \/ m = 2 \/ m = 3 \/ m = 4 \/ m = 5 \/ m = 6 \/ m = 7 \/ m = 8 \/ m = 9)
    as Hc by lia.
  repeat destruct Hc as [-> | Hc]; try reflexivity. subst m. reflexivity.
Qed.

(** The digits of [n >= 0] produced by [digits_aux], read back by
    [parse_digits]. *)
Lemma digits_aux_parse (f : nat) :
  forall n acc a, 0 <= n < 10 ^ Z.of_nat f ->
  exists k : nat,
    parse_digits (String.list_ascii_of_string (TimeFormat.digits_aux f n acc)) a
    = parse_digits (String.list_ascii_of_string acc) (a * 10 ^ Z.of_nat k + n).
Proof.
  induction f as [|f IH]; intros n acc a Hn.
  - simpl in Hn. exists 0%nat. simpl. f_equal. lia.
  - simpl TimeFormat.digits_aux.
    pose proof (Z.mod_pos_bound n 10 ltac:(lia)) as Hm.
    pose proof (Z_div_mod_eq_full n 10) as Hdm.
    destruct (Z.ltb_spec n 10).
    + exists 1%nat. simpl String.list_ascii_of_string. simpl parse_digits.
      rewrite digit_val_char by exact Hm. rewrite Z.mod_small by lia. f_equal; lia.
    + rewrite Nat2Z.inj_succ, Z.pow_succ_r in Hn by lia.
      destruct (IH (n / 10) (String.String (ascii_of_nat (Z.to_nat (48 + n mod 10))) acc) a)
        as [k Hk].
      { split; [apply Z.div_pos; lia | apply Z.div_lt_upper_bound; lia]. }
      exists (S k). rewrite Hk. simpl String.list_ascii_of_string. simpl parse_digits.
      rewrite digit_val_char by exact Hm. f_equal.
      rewrite Nat2Z.inj_succ, Z.pow_succ_r by lia. nia.
Qed.

(** [digits_aux] with fuel always starts its output with a digit. *)
Lemma digits_aux_head (f : nat) :
  forall n acc,
  ((0 < f)%nat \/ exists c r, acc = String.String c r /\ exists m, 0 <= m < 10 /\ c = ascii_of_nat (Z.to_nat (48 + m))) ->
  exists c r, TimeFormat.digits_aux f n acc = String.String c r /\
              exists m, 0 <= m < 10 /\ c = ascii_of_nat (Z.to_nat (48 + m)).
Proof.
  induction f as [|f IH]; intros n acc H.
  - destruct H as [H|H]; [lia | exact H].
  - simpl. pose proof (Z.mod_pos_bound n 10 ltac:(lia)).
    destruct (n <? 10).
    + do 2 eexists. split; [reflexivity|]. eexists. split; [|reflexivity]. lia.
    + apply IH. right. do 2 eexists. split; [reflexivity|]. eexists. split; [|reflexivity]. lia.
Qed.

Lemma ParseInt32_digit_head (s : string) (c : ascii) (r : list ascii) (m : Z) :
  String.list_ascii_of_string s = c :: r -> 0 <= m < 10 -> c = ascii_of_nat (Z.to_nat (48 + m)) ->
  ParseInt32 s = match parse_digits (c :: r) 0 with
                 | None => None
                 | Some un => if 2 ^ 31 <=? un then None else Some un
                 end.
Proof.
  intros Hs Hm ->. unfold ParseInt32. rewrite Hs.
  assert (m = 0 \/ m = 1 \/ m = 2 \/ m = 3 \/ m = 4 \/ m = 5 \/ m = 6 \/ m = 7 \/ m = 8 \/ m = 9)
    as Hc by lia.
  repeat destruct Hc as [-> | Hc]; try reflexivity. subst m. reflexivity.
Qed.

Lemma ParseInt32_minus_digit_head (s : string) (c : ascii) (r : list ascii) (m : Z) :
  String.list_ascii_of_string s = c :: r -> 0 <= m < 10 -> c = ascii_of_nat (Z.to_nat (48 + m)) ->
  ParseInt32 ("-" ++ s)%string = match parse_digits (c :: r) 0 with
                                 | None => None
                                 | Some un => if 2 ^ 31 <? un then None else Some (- un)
                                 end.
Proof.
  intros Hs _ _. unfold ParseInt32.
  change (String.list_ascii_of_string ("-" ++ s)%string) with ("-"%char :: String.list_ascii_of_string s).
  rewrite Hs. reflexivity.
Qed.

Lemma itoa_parse (n : Z) :
  0 <= n < 10 ^ 64 ->
  exists c r m, String.list_ascii_of_string (TimeFormat.itoa n) = c :: r /\
                0 <= m < 10 /\ c = ascii_of_nat (Z.to_nat (48 + m)) /\
                parse_digits (c :: r) 0 = Some n.
Proof.
  intros Hn. unfold TimeFormat.itoa.
  destruct (digits_aux_head 64 n String.EmptyString (or_introl (Nat.lt_0_succ 63))) as (c & r & Hcr & m & Hm & Hc).
  destruct (digits_aux_parse 64 n String.EmptyString 0 Hn) as [k Hk].
  exists c, (String.list_ascii_of_string r), m.
  rewrite Hcr in *. split; [reflexivity|]. split; [exact Hm|]. split; [exact Hc|].
  change (parse_digits (c :: String.list_ascii_of_string r) 0)
    with (parse_digits (String.list_ascii_of_string (String.String c r)) 0).
  rewrite Hk. simpl. f_equal.
Qed.

Lemma length_append (s t : string) :
  String.length (s ++ t)%string = (String.length s + String.length t)%nat.
Proof. induction s as [|c s IH]; [reflexivity | exact (f_equal S IH)]. Qed.

Lemma append_assoc (s t u : string) : (s ++ (t ++ u) = (s ++ t) ++ u)%string.
Proof. induction s as [|c s IH]; [reflexivity | exact (f_equal (String.String c) IH)]. Qed.

Lemma substring_prefix (n : nat) (s : string) :
  (n <= String.length s)%nat ->
  exists rest, s = (String.substring 0 n s ++ rest)%string /\ String.length (String.substring 0 n s) = n.
Proof.
  revert n. induction s as [|c s IH]; intros n Hn.
  - simpl in Hn. assert (n = 0%nat) as -> by lia. exists String.EmptyString. done.
  - destruct n as [|n].
    + exists (String.String c s). done.
    + simpl in Hn. destruct (IH n ltac:(lia)) as [rest [Hs Hl]].
      exists rest. split.
      * change (String.String c s = String.String c (String.substring 0 n s ++ rest)%string).
        by rewrite <- Hs.
      * exact (f_equal S Hl).
Qed.

(** [strings.ReplaceAll(s, "\r\n", "\n")] one character at a time. *)
Lemma replace_crlf_cons (c : ascii) (r : string) :
  replace_crlf (String.String c r) =
  if Ascii.eqb c "013"%char then
    match r with
    | String.String c' r' =>
        if Ascii.eqb c' "010"%char then String.String "010"%char (replace_crlf r')
        else String.String c (replace_crlf r)
    | String.EmptyString => String.String c String.EmptyString
    end
  else String.String c (replace_crlf r).
Proof.
  destruct c as [[] [] [] [] [] [] [] []]; try reflexivity.
  destruct r as [|c' r']; [reflexivity|].
  destruct c' as [[] [] [] [] [] [] [] []]; reflexivity.
Qed.

Lemma replace_crlf_filter_len (k : nat) :
  forall s, (String.length s <= k)%nat ->
  List.filter not_cr (String.list_ascii_of_string (replace_crlf s))
  = List.filter not_cr (String.list_ascii_of_string s) /\
  (String.length (replace_crlf s) <= String.length s)%nat.
Proof.
  induction k as [|k IH]; intros s Hs.
  - destruct s; simpl in Hs; [done | lia].
  - destruct s as [|c r]; [done|]. simpl in Hs. rewrite replace_crlf_cons.
    destruct (Ascii.eqb_spec c "013"%char) as [->|Hc].
    + destruct r as [|c' r']; [done|]. simpl in Hs.
      destruct (Ascii.eqb_spec c' "010"%char) as [->|Hc'].
      * destruct (IH r' ltac:(lia)) as [IH1 IH2]. simpl. rewrite IH1. split; [done | lia].
      * destruct (IH (String.String c' r') ltac:(simpl; lia)) as [IH1 IH2].
        set (x := replace_crlf (String.String c' r')) in *.
        simpl. rewrite IH1. split; [done|]. simpl in IH2. lia.
    + destruct (IH r ltac:(lia)) as [IH1 IH2].
      assert (Hn : not_cr c = true)
        by (unfold not_cr; destruct (Ascii.eqb_spec c "013"%char); [contradiction | reflexivity]).
      set (x := replace_crlf r) in *. simpl. rewrite Hn, IH1. split; [done | lia].
Qed.

(** ** Extra properties *)

(** [parseWithDefault] only ever returns the default or an [int32]
    value; an absent form value ([""]) gives the default. *)
Theorem parseWithDefault_range (s : string) (d : Z) :
  (parseWithDefault s d = d \/ DS.MinInt32 <= parseWithDefault s d <= DS.MaxInt32) /\
  parseWithDefault "" d = d.
Proof.
  split; [|reflexivity]. unfold parseWithDefault.
  destruct (ParseInt32 s) as [n|] eqn:H; [right; exact (ParseInt32_range s n H) | left; reflexivity].
Qed.

(** the decimal numeral of an integer [n] (with a leading ["-"] when
    negative) is read back as [n] when [n] fits in [int32], and gives the
    default otherwise. *)
Theorem parseWithDefault_decimal (n d : Z) :
  - 10 ^ 64 < n < 10 ^ 64 ->
  parseWithDefault (if n <? 0 then ("-" ++ TimeFormat.itoa (- n))%string else TimeFormat.itoa n) d
  = if (DS.MinInt32 <=? n) && (n <=? DS.MaxInt32) then n else d.
Proof.
  intros Hn. unfold parseWithDefault, DS.MinInt32, DS.MaxInt32.
  destruct (Z.ltb_spec n 0).
  - destruct (itoa_parse (- n) ltac:(lia)) as (c & r & m & Hs & Hm & Hc & Hp).
    rewrite (ParseInt32_minus_digit_head _ c r m Hs Hm Hc), Hp.
    destruct (Z.ltb_spec (2 ^ 31) (- n)); destruct (Z.leb_spec (- 2 ^ 31) n);
      destruct (Z.leb_spec n (2 ^ 31 - 1)); simpl; lia.
  - destruct (itoa_parse n ltac:(lia)) as (c & r & m & Hs & Hm & Hc & Hp).
    rewrite (ParseInt32_digit_head _ c r m Hs Hm Hc), Hp.
    destruct (Z.leb_spec (2 ^ 31) n); destruct (Z.leb_spec (- 2 ^ 31) n);
      destruct (Z.leb_spec n (2 ^ 31 - 1)); simpl; lia.
Qed.

Lemma parseWithDefault_decimal_witness :
  (- 10 ^ 64 < -42 < 10 ^ 64) /\
  parseWithDefault (if -42 <? 0 then ("-" ++ TimeFormat.itoa (- -42))%string else TimeFormat.itoa (-42)) 7
  = if (DS.MinInt32 <=? -42) && (-42 <=? DS.MaxInt32) then -42 else 7.
Proof. split; [lia | apply (parseWithDefault_decimal (-42) 7); lia]. Defined.

(** the [trunc] template function leaves strings of at most 80 bytes
    unchanged and otherwise keeps the first 80 bytes followed by ["..."];
    its result never exceeds 83 bytes. *)
Theorem trunc_shape (s : string) :
  ((String.length s <= 80)%nat -> trunc s = s) /\
  ((80 < String.length s)%nat ->
   exists p rest, s = (p ++ rest)%string /\ String.length p = 80%nat /\ trunc s = (p ++ "...")%string) /\
  (String.length (trunc s) <= 83)%nat.
Proof.
  unfold trunc. destruct (Nat.ltb_spec 80 (String.length s)) as [Hlt|Hle].
  - destruct (substring_prefix 80 s ltac:(lia)) as [rest [Hs Hl]].
    split; [lia|]. split.
    + intros _. exists (String.substring 0 80 s), rest. done.
    + rewrite length_append, Hl. simpl. lia.
  - split; [done|]. split; [lia | lia].
Qed.

(** the CRLF rewriting of [toDisplayContent] only removes carriage
    returns: every other byte is kept, in order, and a text without a CRLF
    pair is left unchanged. *)
Theorem replace_crlf_removes_only_cr (s : string) :
  List.filter not_cr (String.list_ascii_of_string (replace_crlf s))
  = List.filter not_cr (String.list_ascii_of_string s) /\
  (String.length (replace_crlf s) <= String.length s)%nat /\
  ((forall p q, s <> (p ++ String.String "013" (String.String "010" q))%string) -> replace_crlf s = s).
Proof.
  destruct (replace_crlf_filter_len (String.length s) s (le_n _)) as [H1 H2].
  split; [exact H1|]. split; [exact H2|].
  clear H1 H2. induction s as [|c r IH]; intros H; [reflexivity|].
  assert (Hr : forall p q, r <> (p ++ String.String "013" (String.String "010" q))%string).
  { intros p q Heq. apply (H (String.String c p) q). rewrite Heq. reflexivity. }
  rewrite replace_crlf_cons.
  destruct (Ascii.eqb_spec c "013"%char) as [->|Hc].
  - destruct r as [|c' r']; [reflexivity|].
    destruct (Ascii.eqb_spec c' "010"%char) as [->|Hc'].
    + exfalso. apply (H String.EmptyString r'). reflexivity.
    + by rewrite (IH Hr).
  - by rewrite (IH Hr).
Qed.

End TextFacts.

(** ** The entry store seen through [Get], [List] and the pages *)
Module StoreFacts.
Import Entries Rows Samples EntriesFacts Pages.



Lemma ordered_in (st : gmap string Entry) (k : string) (e : Entry) :
  In (k, e) (DS.ordered st) <-> st !! k = Some e.
Proof.
  unfold DS.ordered. rewrite <- elem_of_map_to_list, list_elem_of_In.
  split; apply Permutation_in; [|symmetry]; apply merge_sort_Permutation.
Qed.




Lemma Sorted_created (l : list (string * Entry)) :
  Sorted DS.before l -> Sorted (fun a b => Created b.2 <= Created a.2) l.
Proof.
  induction 1 as [|a l Hs IH Hhd]; constructor; [exact IH|].
  destruct Hhd as [|b l Hb]; constructor. unfold DS.before in Hb. lia.
Qed.

Lemma length_ordered (st : gmap string Entry) : List.length (DS.ordered st) = size st.
Proof.
  unfold DS.ordered. rewrite (Permutation_length (merge_sort_Permutation _ _)).
  apply length_map_to_list.
Qed.

Lemma parseWithDefault_cases (s : string) (d v : Z) :
  parseWithDefault s d = v -> v = d \/ DS.MinInt32 <= v <= DS.MaxInt32.
Proof.
  unfold parseWithDefault. intros <-.
  destruct (ParseInt32 s) as [n|] eqn:H; [right; exact (TextFacts.ParseInt32_range s n H) | left; reflexivity].
Qed.

(** after a successful [Insert], [Get] of the returned id and the
    permalink page [entryHandler] show the new entry, with the second
    clock reading (at microsecond precision) as [created]; every other id
    reads as before. *)
Theorem Insert_then_Get (b : Backend) (st : gmap string Entry) (now_key now_created : Time)
    (content title : string) :
  write_fault b = None ->
  let '(st', (id, err)) := Insert b st now_key now_created content title in
  err = None /\
  Get st' id = inl (mkEntry title content id (now_created - now_created mod 1000)) /\
  entryHandler st' id = EntryPage (mkEntry title content id (now_created - now_created mod 1000)) /\
  (forall other, other <> id -> Get st' other = Get st other).
Proof.
  intros Hb. unfold Insert. rewrite put_ok by exact Hb. simpl.
  unfold entryHandler, Get, DS.get. rewrite lookup_insert_eq.
  split; [done|]. split; [done|]. split; [done|].
  intros other Hne. by rewrite lookup_insert_ne by congruence.
Qed.

Lemma Insert_then_Get_witness :
  write_fault healthy = None /\
  (let '(st', (id, err)) := Insert healthy st_one 0 5000 "c" "t" in
   err = None /\
   Get st' id = inl (mkEntry "t" "c" id (5000 - 5000 mod 1000)) /\
   entryHandler st' id = EntryPage (mkEntry "t" "c" id (5000 - 5000 mod 1000)) /\
   (forall other, other <> id -> Get st' other = Get st_one other)).
Proof. split; [reflexivity | apply (Insert_then_Get healthy st_one 0 5000 "c" "t"); reflexivity]. Defined.






(** When the creation time of the new entry as stored (the second clock
    reading truncated to microseconds) is later than the [created] of
    every stored entry, the inserted entry is the first entry of the
    listing [List(n, 0)], [1 <= n <= 2^31 - 1]. *)
Theorem Insert_newest_listed_first (b : Backend) (st : gmap string Entry) (now_key now_created : Time)
    (content title : string) (n : Z) :
  write_fault b = None ->
  (forall key x, st !! key = Some x -> Created x < now_created - now_created mod 1000) ->
  1 <= n <= DS.MaxInt32 ->
  let '(st', (id, _)) := Insert b st now_key now_created content title in
  hd_error (entries_of (List healthy st' n 0))
  = Some (mkEntry title content id (now_created - now_created mod 1000)).
Proof.
  intros Hb Hold Hn. unfold Insert. rewrite put_ok by exact Hb. simpl.
  set (id := insert_key content title now_key).
  set (e := DS.save (mkEntry title content "" now_created)).
  set (st' := <[id := e]> st).
  rewrite EntryStore.List_in_range by (unfold DS.MaxInt32 in *; lia). rewrite drop_0.
  assert (Hnew : In (id, e) (DS.ordered st')) by (apply ordered_in; apply lookup_insert_eq).
  assert (Hs : Sorted DS.before (DS.ordered st'))
    by (unfold DS.ordered; apply Sorted_merge_sort; exact DS.before_total).
  destruct (DS.ordered st') as [|x0 rest] eqn:Ho; [destruct Hnew|].
  replace (Z.to_nat n) with (S (Z.to_nat n - 1)) by lia. simpl.
  assert (Hx0 : In x0 (DS.ordered st')) by (rewrite Ho; left; reflexivity).
  destruct x0 as [k0 x0]. apply ordered_in in Hx0.
  destruct (decide (k0 = id)) as [->|Hne].
  - unfold st' in Hx0. rewrite lookup_insert_eq in Hx0. injection Hx0 as <-. reflexivity.
  - exfalso. unfold st' in Hx0. rewrite lookup_insert_ne in Hx0 by congruence.
    pose proof (Hold k0 x0 Hx0) as Hlt.
    apply Sorted_created, Sorted_StronglySorted in Hs; [|intros ? ? ? ? ?; lia].
    apply StronglySorted_inv in Hs as [_ Hall].
    destruct Hnew as [Heq|Hin]; [injection Heq; congruence|].
    rewrite Forall_forall in Hall. apply list_elem_of_In, Hall in Hin. simpl in Hin. unfold e in Hin. simpl in Hin. lia.
Qed.

Lemma Insert_newest_listed_first_witness :
  (write_fault healthy = None /\
   (forall key x, st_one !! key = Some x -> Created x < 5000 - 5000 mod 1000) /\
   1 <= 1 <= DS.MaxInt32) /\
  (let '(st', (id, _)) := Insert healthy st_one 0 5000 "c" "t" in
   hd_error (entries_of (List healthy st' 1 0)) = Some (mkEntry "t" "c" id (5000 - 5000 mod 1000))).
Proof.
  split.
  - split; [reflexivity|]. split.
    + intros key x Hx. unfold st_one in Hx. apply lookup_singleton_Some in Hx as [_ <-]. vm_compute. reflexivity.
    + unfold DS.MaxInt32. lia.
  - apply (Insert_newest_listed_first healthy st_one 0 5000 "c" "t" 1).
    + reflexivity.
    + intros key x Hx. unfold st_one in Hx. apply lookup_singleton_Some in Hx as [_ <-]. vm_compute. reflexivity.
    + unfold DS.MaxInt32. lia.
Defined.

(** with a limit of at least the number of stored entries,
    [List(n, 0)] returns every stored entry exactly once, with [ID] set
    to its key. *)
Theorem List_lists_everything (st : gmap string Entry) (n : Z) :
  Z.of_nat (size st) <= n <= DS.MaxInt32 ->
  entries_of (List healthy st n 0) ≡ₚ map as_entry (map_to_list st).
Proof.
  intros Hn. rewrite EntryStore.List_in_range by (unfold DS.MaxInt32 in *; lia).
  rewrite drop_0, take_ge by (rewrite length_ordered; lia).
  apply Permutation_map. apply merge_sort_Permutation.
Qed.

Lemma List_lists_everything_witness :
  Z.of_nat (size st_two) <= 2 <= DS.MaxInt32 /\
  entries_of (List healthy st_two 2 0) ≡ₚ map as_entry (map_to_list st_two).
Proof.
  split; [vm_compute; split; discriminate|].
  apply (List_lists_everything st_two 2). vm_compute. split; discriminate.
Defined.

(** for a limit and offset read from the form with [limit, offset >= 0]
    and [offset + limit] in range, the index page shows the [limit]
    entries after the first [offset] of the listing, and its next-page
    offset is [-1] exactly when fewer than [limit] entries follow the
    first [offset], and [offset + limit] otherwise. *)
Theorem indexHandler_page (st : gmap string Entry) (limit_s offset_s : string) (limit offset : Z) :
  parseWithDefault limit_s 20 = limit -> parseWithDefault offset_s 0 = offset ->
  0 <= limit -> 0 <= offset -> offset + limit <= DS.MaxInt32 ->
  indexHandler healthy st limit_s offset_s =
  Some (map as_entry (take (Z.to_nat limit) (drop (Z.to_nat offset) (DS.ordered st))),
        if Z.of_nat (List.length (drop (Z.to_nat offset) (DS.ordered st))) <? limit
        then -1 else offset + limit).
Proof.
  intros Hl Ho H1 H2 H3. unfold indexHandler. rewrite Hl, Ho.
  assert (Hq : DS.Offset (DS.Limit DS.NewQuery limit) offset = DS.mkQuery limit offset None)
    by (apply EntryStore.query_in_range; unfold DS.MinInt32, DS.MaxInt32 in *; lia).
  rewrite (List_rows healthy st limit offset ltac:(by rewrite Hq) eq_refl), Hq.
  unfold query_rows. simpl. destruct (Z.ltb_spec limit 0); [lia|].
  rewrite take_z_take, drop_z_drop. f_equal. f_equal.
  rewrite length_map, length_take.
  set (r := List.length (drop (Z.to_nat offset) (DS.ordered st))).
  destruct (Nat.min_spec (Z.to_nat limit) r) as [[Hm ->]|[Hm ->]];
    destruct (Z.ltb_spec (Z.of_nat r) limit); destruct (Z.ltb_spec (Z.of_nat (Z.to_nat limit)) limit);
    try reflexivity; lia.
Qed.

Lemma indexHandler_page_witness :
  (parseWithDefault "1" 20 = 1 /\ parseWithDefault "0" 0 = 0 /\ 0 <= 1 /\ 0 <= 0 /\ 0 + 1 <= DS.MaxInt32) /\
  indexHandler healthy st_two "1" "0" =
  Some (map as_entry (take (Z.to_nat 1) (drop (Z.to_nat 0) (DS.ordered st_two))),
        if Z.of_nat (List.length (drop (Z.to_nat 0) (DS.ordered st_two))) <? 1 then -1 else 0 + 1).
Proof.
  split; [split; [reflexivity|]; split; [reflexivity|]; unfold DS.MaxInt32; lia|].
  apply (indexHandler_page st_two "1" "0" 1 0); [reflexivity | reflexivity | lia | lia | unfold DS.MaxInt32; lia].
Defined.

(** A negative [limit] in the form, with a non-negative [offset], makes
    the index page show every entry after the first [offset], with
    [offset + limit], an offset before the current one, as next-page
    offset. *)
Theorem indexHandler_negative_limit (st : gmap string Entry) (limit_s offset_s : string) (limit offset : Z) :
  parseWithDefault limit_s 20 = limit -> parseWithDefault offset_s 0 = offset ->
  limit < 0 -> 0 <= offset ->
  indexHandler healthy st limit_s offset_s =
  Some (map as_entry (drop (Z.to_nat offset) (DS.ordered st)), offset + limit).
Proof.
  intros Hl Ho H1 H2. unfold indexHandler.
  pose proof (parseWithDefault_cases _ _ _ Hl) as Hlr. pose proof (parseWithDefault_cases _ _ _ Ho) as Hor.
  rewrite Hl, Ho.
  assert (Hq : DS.Offset (DS.Limit DS.NewQuery limit) offset = DS.mkQuery limit offset None)
    by (apply EntryStore.query_in_range; unfold DS.MinInt32, DS.MaxInt32 in *; lia).
  rewrite (List_rows healthy st limit offset ltac:(by rewrite Hq) eq_refl), Hq.
  unfold query_rows. simpl. destruct (Z.ltb_spec limit 0); [|lia].
  rewrite drop_z_drop. destruct (Z.ltb_spec (Z.of_nat (List.length (map as_entry (drop (Z.to_nat offset) (DS.ordered st))))) limit); [lia | reflexivity].
Qed.

Lemma indexHandler_negative_limit_witness :
  (parseWithDefault "-1" 20 = -1 /\ parseWithDefault "0" 0 = 0 /\ -1 < 0 /\ 0 <= 0) /\
  indexHandler healthy st_two "-1" "0" =
  Some (map as_entry (drop (Z.to_nat 0) (DS.ordered st_two)), 0 + -1).
Proof.
  split; [split; [reflexivity|]; split; [reflexivity|]; lia|].
  apply (indexHandler_negative_limit st_two "-1" "0" (-1) 0); [reflexivity | reflexivity | lia | lia].
Defined.

(** a negative [offset] in the form gives, on every backend, an index
    page without entries, whose next-page offset is [-1] for a positive
    limit and [offset + limit] otherwise. *)
Theorem indexHandler_negative_offset (b : Backend) (st : gmap string Entry) (limit_s offset_s : string)
    (limit offset : Z) :
  parseWithDefault limit_s 20 = limit -> parseWithDefault offset_s 0 = offset -> offset < 0 ->
  indexHandler b st limit_s offset_s = Some ([], if 0 <? limit then -1 else offset + limit).
Proof.
  intros Hl Ho H. unfold indexHandler. rewrite Hl, Ho.
  unfold List, DS.Run. unfold DS.Offset at 1. destruct (Z.ltb_spec offset 0); [|lia]. reflexivity.
Qed.

Lemma indexHandler_negative_offset_witness :
  (parseWithDefault "20" 20 = 20 /\ parseWithDefault "-5" 0 = -5 /\ -5 < 0) /\
  indexHandler healthy st_two "20" "-5" = Some ([], if 0 <? 20 then -1 else -5 + 20).
Proof.
  split; [split; [reflexivity|]; split; [reflexivity | lia]|].
  apply (indexHandler_negative_offset healthy st_two "20" "-5" 20 (-5)); [reflexivity | reflexivity | lia].
Defined.

End StoreFacts.

(** ** Outbound notifications, handler guards, share target and ids *)
Module HandlerFacts.
Import Entries Rows Samples EntriesFacts Stream Pages.

Lemma send_loop_all_found (net : Net) (source : string) (links : list string) :
  (forall l, In l links -> exists ep, discover_endpoint net l = inl ep) ->
  send_loop net source links =
  (flat_map (fun l => match discover_endpoint net l with
                      | inl ep => [EvDiscoverEndpoint l; EvSendWebmention ep source l]
                      | inr _ => [] end) links, None).
Proof.
  induction links as [|l rest IH]; intros H; [reflexivity|]. simpl.
  destruct (H l (or_introl eq_refl)) as [ep Hep]. rewrite Hep.
  rewrite IH by (intros l' Hl'; apply H; right; exact Hl'). reflexivity.
Qed.

Lemma send_loop_sends (net : Net) (source : string) (links : list string) (ep src tgt : string) :
  In (EvSendWebmention ep src tgt) (send_loop net source links).1 ->
  src = source /\ In tgt links /\ discover_endpoint net tgt = inl ep.
Proof.
  induction links as [|l rest IH]; simpl; [done|].
  destruct (discover_endpoint net l) as [ep'|err] eqn:Hd.
  - destruct (send_loop net source rest) as [evs r]. simpl.
    intros [H|[H|H]]; [discriminate| |].
    + injection H as -> -> ->. auto.
    + destruct (IH H) as (? & ? & ?). auto.
  - simpl. intros [H|[]]. discriminate.
Qed.

Lemma send_loop_no_post (net : Net) (source : string) (links : list string) (u : string) f :
  ~ In (EvPostForm u f) (send_loop net source links).1.
Proof.
  induction links as [|l rest IH]; simpl; [intros []|].
  destruct (discover_endpoint net l) as [ep|err].
  - destruct (send_loop net source rest) as [evs r]. simpl in *.
    intros [H|[H|H]]; [discriminate | discriminate | exact (IH H)].
  - simpl. intros [H|[]]. discriminate.
Qed.

Lemma send_loop_ok (net : Net) (source : string) (links : list string) :
  (send_loop net source links).2 = None ->
  forall l, In l links -> exists ep, discover_endpoint net l = inl ep.
Proof.
  induction links as [|l rest IH]; simpl; [done|].
  destruct (discover_endpoint net l) as [ep|err] eqn:Hd; [|discriminate].
  destruct (send_loop net source rest) as [evs r] eqn:Hs. simpl. intros Hr l' [<-|Hl'].
  - exists ep. exact Hd.
  - apply IH; [exact Hr | exact Hl'].
Qed.

(** when every link found in the content advertises a webmention
    endpoint and the hub answers, [sendWebMentions] discovers the
    endpoint of each link and sends it one webmention from the permalink,
    in the order of the links and whatever the sends answer, then
    publishes once to the WebSub hub and returns no error. *)
Theorem sendWebMentions_all_found (cfg : Config) (net : Net) (id content : string)
    (links : list string) (status : Z) :
  discover_links net content (permalinkFromId cfg id) = inl links ->
  (forall l, In l links -> exists ep, discover_endpoint net l = inl ep) ->
  post_form net (WEBSUB cfg) (websub_form cfg) = HResp status ->
  sendWebMentions cfg net id content =
  (EvDiscoverLinks content (permalinkFromId cfg id) ::
   flat_map (fun l => match discover_endpoint net l with
                      | inl ep => [EvDiscoverEndpoint l; EvSendWebmention ep (permalinkFromId cfg id) l]
                      | inr _ => [] end) links ++
   [EvPostForm (WEBSUB cfg) (websub_form cfg)], Returned None).
Proof.
  intros Hl Hall Hp. unfold sendWebMentions. rewrite Hl.
  rewrite send_loop_all_found by exact Hall. rewrite Hp. reflexivity.
Qed.

Lemma sendWebMentions_all_found_witness :
  (discover_links (net_all_found (HResp 200)) "c" (permalinkFromId cfg0 "id1") = inl [link_a; link_b] /\
   (forall l, In l [link_a; link_b] -> exists ep, discover_endpoint (net_all_found (HResp 200)) l = inl ep) /\
   post_form (net_all_found (HResp 200)) (WEBSUB cfg0) (websub_form cfg0) = HResp 200) /\
  sendWebMentions cfg0 (net_all_found (HResp 200)) "id1" "c" =
  (EvDiscoverLinks "c" (permalinkFromId cfg0 "id1") ::
   flat_map (fun l => match discover_endpoint (net_all_found (HResp 200)) l with
                      | inl ep => [EvDiscoverEndpoint l; EvSendWebmention ep (permalinkFromId cfg0 "id1") l]
                      | inr _ => [] end) [link_a; link_b] ++
   [EvPostForm (WEBSUB cfg0) (websub_form cfg0)], Returned None).
Proof.
  assert (Hall : forall l, In l [link_a; link_b] -> exists ep, discover_endpoint (net_all_found (HResp 200)) l = inl ep)
    by (intros l _; eexists; reflexivity).
  split; [split; [reflexivity|]; split; [exact Hall | reflexivity]|].
  apply (sendWebMentions_all_found cfg0 (net_all_found (HResp 200)) "id1" "c" [link_a; link_b] 200);
    [reflexivity | exact Hall | reflexivity].
Defined.

(** every webmention [sendWebMentions] sends has the entry's permalink
    as source, a link discovered in the content as target, and the
    endpoint discovered for that target. *)
Theorem sendWebMentions_targets (cfg : Config) (net : Net) (id content ep src tgt : string) :
  In (EvSendWebmention ep src tgt) (sendWebMentions cfg net id content).1 ->
  src = permalinkFromId cfg id /\
  (exists links, discover_links net content (permalinkFromId cfg id) = inl links /\ In tgt links) /\
  discover_endpoint net tgt = inl ep.
Proof.
  unfold sendWebMentions.
  destruct (discover_links net content (permalinkFromId cfg id)) as [links|err] eqn:Hl.
  - destruct (send_loop net (permalinkFromId cfg id) links) as [evs r] eqn:Hs.
    assert (Hin : forall x, In x evs -> In x (send_loop net (permalinkFromId cfg id) links).1)
      by (rewrite Hs; done).
    intros H. assert (H' : In (EvSendWebmention ep src tgt) evs).
    { destruct r as [err|].
      - destruct H as [H|H]; [discriminate | exact H].
      - destruct (post_form net (WEBSUB cfg) (websub_form cfg));
          simpl in H; destruct H as [H|H]; try discriminate;
          apply in_app_or in H as [H|[H|[]]]; [exact H | discriminate | exact H | discriminate]. }
    destruct (send_loop_sends _ _ _ _ _ _ (Hin _ H')) as (-> & Ht & He).
    split; [done|]. split; [exists links; done | exact He].
  - simpl. intros [H|[]]. discriminate.
Qed.

Lemma sendWebMentions_targets_witness :
  In (EvSendWebmention (link_a ++ "/webmention") (permalinkFromId cfg0 "id1") link_a)
     (sendWebMentions cfg0 (net_all_found (HResp 200)) "id1" "c").1 /\
  (permalinkFromId cfg0 "id1" = permalinkFromId cfg0 "id1" /\
   (exists links, discover_links (net_all_found (HResp 200)) "c" (permalinkFromId cfg0 "id1") = inl links
                  /\ In link_a links) /\
   discover_endpoint (net_all_found (HResp 200)) link_a = inl (link_a ++ "/webmention")%string).
Proof.
  split; [simpl; right; right; left; reflexivity|].
  apply (sendWebMentions_targets cfg0 (net_all_found (HResp 200)) "id1" "c"). simpl. right; right; left; reflexivity.
Defined.

(** [sendWebMentions] publishes to the WebSub hub only after every
    link found in the content had its endpoint discovered, and then only
    to the configured hub with the site's feed URL. *)
Theorem sendWebMentions_hub_only_after_all (cfg : Config) (net : Net) (id content u : string) f :
  In (EvPostForm u f) (sendWebMentions cfg net id content).1 ->
  u = WEBSUB cfg /\ f = websub_form cfg /\
  exists links, discover_links net content (permalinkFromId cfg id) = inl links /\
                forall l, In l links -> exists ep, discover_endpoint net l = inl ep.
Proof.
  unfold sendWebMentions.
  destruct (discover_links net content (permalinkFromId cfg id)) as [links|err] eqn:Hl.
  - destruct (send_loop net (permalinkFromId cfg id) links) as [evs r] eqn:Hs.
    pose proof (send_loop_no_post net (permalinkFromId cfg id) links u f) as Hno. rewrite Hs in Hno. simpl in Hno.
    destruct r as [err|].
    + simpl. intros [H|H]; [discriminate | contradiction].
    + assert (Hok := send_loop_ok net (permalinkFromId cfg id) links ltac:(by rewrite Hs)).
      intros H. assert (Hp : EvPostForm u f = EvPostForm (WEBSUB cfg) (websub_form cfg)).
      { destruct (post_form net (WEBSUB cfg) (websub_form cfg));
          simpl in H; destruct H as [H|H]; try discriminate;
          apply in_app_or in H as [H|[H|[]]]; (contradiction || by symmetry). }
      injection Hp as -> ->. split; [done|]. split; [done|]. exists links. done.
  - simpl. intros [H|[]]. discriminate.
Qed.

Lemma sendWebMentions_hub_only_after_all_witness :
  In (EvPostForm (WEBSUB cfg0) (websub_form cfg0)) (sendWebMentions cfg0 (net_all_found (HResp 200)) "id1" "c").1 /\
  (WEBSUB cfg0 = WEBSUB cfg0 /\ websub_form cfg0 = websub_form cfg0 /\
   exists links, discover_links (net_all_found (HResp 200)) "c" (permalinkFromId cfg0 "id1") = inl links /\
                 forall l, In l links -> exists ep, discover_endpoint (net_all_found (HResp 200)) l = inl ep).
Proof.
  split; [simpl; do 5 right; left; reflexivity|].
  apply (sendWebMentions_hub_only_after_all cfg0 (net_all_found (HResp 200)) "id1" "c"). simpl. do 5 right; left; reflexivity.
Defined.

Lemma shareTargetToMap_unfold (env : ShareEnv) (form : gmap string (list string)) :
  let text := form_get form "text" in
  let u := if url_parse_ok env text && negb (String.eqb text "") then text else form_get form "url" in
  let ret := <["content" := text]> (<["title" := form_get form "title"]> ∅) in
  shareTargetToMap env form =
  if String.eqb u "" then ([], ret) else
  match fetch_document env u with
  | inr _ => ([u], ret)
  | inl doc =>
      ([u], <["content" := ("<a class='u-in-reply-to' href='" ++ default u (canonical_href doc) ++ "'>"
                            ++ title_text doc ++ "</a>")%string]>
              (<["title" := title_text doc]> ret))
  end.
Proof.
  cbv zeta. unfold shareTargetToMap. cbv zeta.
  set (t := form_get form "text").
  assert (Hu : (if String.eqb (if url_parse_ok env t then t else "") "" then form_get form "url"
                else if url_parse_ok env t then t else "")
               = (if url_parse_ok env t && negb (String.eqb t "") then t else form_get form "url")).
  { destruct (url_parse_ok env t); [|reflexivity]. simpl. by destruct (String.eqb t ""). }
  rewrite Hu. destruct (url_parse_ok env t && negb (String.eqb t "") ); [|reflexivity].
  destruct (String.eqb t ""); [reflexivity|].
  destruct (fetch_document env t) as [doc|err]; [|reflexivity].
  by destruct (canonical_href doc).
Qed.

(** [shareTargetToMap] fetches at most one page: the shared [text]
    when it is a non-empty parseable URL, otherwise the shared [url],
    and nothing when that is empty.  The map it returns always has
    exactly the keys [title] and [content]; they echo the shared [title]
    and [text] when nothing was fetched or the fetch failed, and hold the
    page title and a reply link to the page (its canonical URL when it
    names one) when the fetch succeeded. *)
Theorem shareTargetToMap_fetch (env : ShareEnv) (form : gmap string (list string)) :
  let text := form_get form "text" in
  let u := if url_parse_ok env text && negb (String.eqb text "") then text else form_get form "url" in
  let r := shareTargetToMap env form in
  r.1 = (if String.eqb u "" then [] else [u]) /\
  dom r.2 = {["title"; "content"]} /\
  ((u = ""%string \/ exists err, fetch_document env u = inr err) ->
   r.2 !! "title" = Some (form_get form "title") /\ r.2 !! "content" = Some text) /\
  (forall doc, u <> ""%string -> fetch_document env u = inl doc ->
   r.2 !! "title" = Some (title_text doc) /\
   r.2 !! "content" = Some ("<a class='u-in-reply-to' href='" ++ default u (canonical_href doc) ++ "'>"
                            ++ title_text doc ++ "</a>")%string).
Proof.
  cbv zeta. rewrite shareTargetToMap_unfold. cbv zeta.
  set (u := if url_parse_ok env (form_get form "text") && negb (String.eqb (form_get form "text") "")
            then form_get form "text" else form_get form "url").
  destruct (String.eqb_spec u "") as [Hu|Hu].
  - simpl. split; [done|]. split; [rewrite !dom_insert_L, dom_empty_L; set_solver|].
    split; [intros _; split; by simplify_map_eq | intros doc Hne; contradiction].
  - destruct (fetch_document env u) as [doc|err] eqn:Hf; simpl.
    + split; [done|]. split; [rewrite !dom_insert_L, dom_empty_L; set_solver|]. split.
      * intros [H|[err H]]; [contradiction | congruence].
      * intros doc' _ Hd. injection Hd as <-. split; by simplify_map_eq.
    + split; [done|]. split; [rewrite !dom_insert_L, dom_empty_L; set_solver|].
      split; [intros _; split; by simplify_map_eq | intros doc _ Hd; discriminate].
Qed.

(** the id [Insert] issues depends on [content] and [title] only
    through their concatenation: at the same clock reading, inserting
    [(c2, t2)] with [c2 ++ t2 = c1 ++ t1] after [(c1, t1)] returns the same
    id and replaces the first entry. *)
Theorem Insert_id_concat (b : Backend) (st : gmap string Entry) (now_key now1 now2 : Time)
    (c1 t1 c2 t2 : string) :
  (c1 ++ t1)%string = (c2 ++ t2)%string ->
  let '(st1, (id1, _)) := Insert b st now_key now1 c1 t1 in
  let '(st2, (id2, _)) := Insert b st1 now_key now2 c2 t2 in
  id2 = id1 /\
  (write_fault b = None -> Get st2 id1 = inl (mkEntry t2 c2 id1 (now2 - now2 mod 1000))).
Proof.
  intros H.
  assert (Hk : insert_key c2 t2 now_key = insert_key c1 t1 now_key).
  { unfold insert_key. by rewrite !TextFacts.append_assoc, H. }
  unfold Insert. rewrite Hk. unfold DS.put.
  destruct (write_fault b); simpl; split; try done.
  intros _. unfold Get, DS.get. by rewrite lookup_insert_eq.
Qed.

Lemma Insert_id_concat_witness :
  ("ab" ++ "c")%string = ("a" ++ "bc")%string /\
  (let '(st1, (id1, _)) := Insert healthy ∅ t_same 1000 "ab" "c" in
   let '(st2, (id2, _)) := Insert healthy st1 t_same 2000 "a" "bc" in
   id2 = id1 /\
   (write_fault healthy = None -> Get st2 id1 = inl (mkEntry "bc" "a" id1 (2000 - 2000 mod 1000)))).
Proof. split; [reflexivity | apply (Insert_id_concat healthy ∅ t_same 1000 2000 "ab" "c" "a" "bc"); reflexivity]. Defined.

End HandlerFacts.
